(** * use-list-transform: the reducer, the staleness guard and the pipeline runner

    A shallow embedding of [src/useListTransform.ts].

    - The reducer [transformReducer] is a pure function and is embedded as one.
    - The hook instance (React's store for [useReducer], the two [useRef]
      cells and the options of the latest render) is the record [Hook];
      [dispatch] applies the reducer to the store.
    - The callbacks [onLoading], [onError] and [onListUpdate] are observed
      through the field [calls], the list of their invocations in order.
    - [transformList] is an [async] function: it runs synchronously up to an
      [await] and is resumed when the awaited promise settles.  A run that
      awaits is the record [Suspended]; [resume] is the code after the
      [await].  When a promise settles is the scheduler's choice ([Settle]).
    - JavaScript is dynamically typed: an element of the pipeline array can be
      [undefined], and a promise can be fulfilled with a function.  The model
      keeps these cases; values other than arrays and functions are left out.
    - The run counter is a JavaScript number; it is modelled as [nat]
      (no run count reaches 2^53). *)

From stdpp Require Import gmap strings list fin_maps.

Section UseListTransform.

Context {Item V Err : Type}.

(** ** Values *)

(** What [transformedList] can hold at run time: an array of items, or a
    function (only when a promise is fulfilled with one). *)
Inductive JsVal :=
  | VArray (l : list Item)
  | VFunction (p : Item → nat → bool).

(** A thrown value or rejection reason: the engine's [TypeError] (calling
    something that is not a function) or a value of the caller's. *)
Inductive JsError :=
  | TypeError
  | Thrown (e : Err).

(** The transform data: [undefined], [null] or an object. *)
Inductive JsData :=
  | DUndefined
  | DNull
  | DObject (o : gmap string V).

(** [{...d}]: the own properties of [d]; spreading [undefined] or [null]
    gives no property. *)
Definition spread (d : JsData) : gmap string V :=
  match d with
  | DObject o => o
  | DUndefined | DNull => ∅
  end.

(** [d == null] *)
Definition is_nullish (d : JsData) : bool :=
  match d with
  | DUndefined | DNull => true
  | DObject _ => false
  end.

(** ** State container (lines 46-112) *)

(** [TransformState]; [st_list = None] is [list: null]. *)
Record TransformState := {
  st_data : JsData;
  st_list : option JsVal;
  st_loading : bool;
  st_error : option JsError;
}.

Inductive Action :=
  | SET_LIST (payload : JsVal)
  | SET_DATA (payload : JsData)
  | UPDATE_DATA (payload : JsData)
  | RESET_DATA (payload : JsData)
  | SET_LOADING (payload : bool)
  | SET_ERROR (payload : JsError).

Definition transformReducer (state : TransformState) (action : Action)
  : TransformState :=
  match action with
  | SET_LIST payload =>
      {| st_data := st_data state; st_list := Some payload;
         st_loading := false; st_error := st_error state |}
  | SET_DATA payload =>
      {| st_data := payload; st_list := st_list state;
         st_loading := st_loading state; st_error := st_error state |}
  | UPDATE_DATA payload =>
      {| st_data := DObject (spread payload ∪ spread (st_data state));
         st_list := st_list state;
         st_loading := st_loading state; st_error := st_error state |}
  | RESET_DATA payload =>
      {| st_data := payload; st_list := st_list state;
         st_loading := st_loading state; st_error := st_error state |}
  | SET_LOADING payload =>
      {| st_data := st_data state; st_list := st_list state;
         st_loading := payload; st_error := None |}
  | SET_ERROR payload =>
      {| st_data := st_data state; st_list := None;
         st_loading := false; st_error := Some payload |}
  end.

(** ** Stages and options (lines 4-37, 118-123) *)

Record TransformerParams := {
  tp_list : JsVal;
  tp_data : JsData;
  tp_previousData : JsData;
}.

(** How a promise settles. *)
Inductive Settlement :=
  | Fulfilled (v : JsVal)
  | Rejected (e : JsError).

(** What invoking a stage does: it returns an array, a function or a
    promise, or it throws. *)
Inductive Completion :=
  | ReturnsArray (l : list Item)
  | ReturnsFunction (p : Item → nat → bool)
  | ReturnsPromise (s : Settlement)
  | Throws (e : JsError).

(** An element of the pipeline array. *)
Inductive JsElem :=
  | Callable (f : TransformerParams → Completion)
  | Undefined.

(** The value of [options.transform]. *)
Inductive TransformOption :=
  | OptUndefined
  | OptFunction (f : TransformerParams → Completion)
  | OptArray (l : list JsElem).

Record UseTransformOptions := {
  opt_list : list Item;
  opt_transformData : JsData;
  opt_transform : TransformOption;
  opt_throwOnError : bool;
}.

Definition toArray (value : TransformOption) : list JsElem :=
  match value with
  | OptArray l => l
  | OptFunction f => [Callable f]
  | OptUndefined => [Undefined]
  end.

(** [transform(params)]: calling [undefined] throws a [TypeError]. *)
Definition invoke (transform : JsElem) (params : TransformerParams)
  : Completion :=
  match transform with
  | Callable f => f params
  | Undefined => Throws TypeError
  end.

(** [Array.prototype.filter]: the callback receives the item and its
    index. *)
Fixpoint filter_from (p : Item → nat → bool) (i : nat) (l : list Item)
  : list Item :=
  match l with
  | [] => []
  | x :: t => if p x i then x :: filter_from p (S i) t
              else filter_from p (S i) t
  end.

Definition Array_filter (p : Item → nat → bool) (l : list Item) : list Item :=
  filter_from p 0 l.

(** ** The hook instance (lines 125-212) *)

(** An invocation of one of the option callbacks (or of [noop] in its
    place). *)
Inductive Callback :=
  | onLoading (isLoading : bool)
  | onError (error : JsError)
  | onListUpdate (l : JsVal).

Record Hook := {
  state : TransformState;          (* the store of useReducer *)
  transformListId : nat;           (* transformListId.current *)
  transforms : list JsElem;        (* transforms.current *)
  options : UseTransformOptions;   (* the options of the latest render *)
  calls : list Callback;           (* callback invocations, oldest first *)
}.

Definition dispatch (action : Action) (h : Hook) : Hook :=
  {| state := transformReducer (state h) action;
     transformListId := transformListId h;
     transforms := transforms h;
     options := options h;
     calls := calls h |}.

Definition call (c : Callback) (h : Hook) : Hook :=
  {| state := state h;
     transformListId := transformListId h;
     transforms := transforms h;
     options := options h;
     calls := calls h ++ [c] |}.

Definition isLatestTransform (listId : nat) (h : Hook) : bool :=
  Nat.eqb (transformListId h) listId.

Definition setTransform (data : JsData) (h : Hook) : Hook :=
  dispatch (SET_DATA data) h.

Definition updateTransform (data : JsData) (h : Hook) : Hook :=
  dispatch (UPDATE_DATA data) h.

Definition resetTransform (h : Hook) : Hook :=
  dispatch (RESET_DATA (opt_transformData (options h))) h.

Definition setList (payload : JsVal) (transId : nat) (h : Hook) : Hook :=
  if negb (isLatestTransform transId h) then h
  else dispatch (SET_LIST payload)
         (call (onListUpdate payload) (call (onLoading false) h)).

Definition setLoading (payload : bool) (h : Hook) : Hook :=
  dispatch (SET_LOADING payload) (call (onLoading payload) h).

Definition setError (payload : JsError) (transId : nat) (h : Hook) : Hook :=
  let h1 := call (onError payload) h in
  if negb (isLatestTransform transId h1) then h1
  else dispatch (SET_ERROR payload) h1.

(** ** The pipeline runner (lines 216-263) *)

(** What the closure of [transformList] captured at its render:
    [state.data], [prevTransformData] (computed by [usePrevious], which is
    not part of the sources at hand) and [options.list]. *)
Record Closure := {
  c_data : JsData;
  c_prev : JsData;
  c_list : list Item;
}.

(** A run suspended at [await result]: its identifier, its closure, the
    promise it awaits and the stages after the current one. *)
Record Suspended := {
  k_id : nat;
  k_closure : Closure;
  k_promise : Settlement;
  k_rest : list JsElem;
}.

(** The [for ... of] loop from some iteration on, with the call of
    [setList] that follows it. *)
Fixpoint transform_loop (c : Closure) (currentTransformId : nat)
    (transformedList : JsVal) (stages : list JsElem) (h : Hook)
  : Hook * option Suspended :=
  match stages with
  | [] => (setList transformedList currentTransformId h, None)
  | transform :: rest =>
      if negb (isLatestTransform currentTransformId h) then (h, None)
      else
        match invoke transform
                {| tp_list := transformedList; tp_data := c_data c;
                   tp_previousData := c_prev c |} with
        | ReturnsPromise s =>
            (h, Some {| k_id := currentTransformId; k_closure := c;
                        k_promise := s; k_rest := rest |})
        | ReturnsFunction p =>
            match transformedList with
            | VArray l =>
                transform_loop c currentTransformId
                  (VArray (Array_filter p l)) rest h
            | VFunction _ =>
                (* transformedList.filter is undefined: calling it throws *)
                (setError TypeError currentTransformId h, None)
            end
        | ReturnsArray l =>
            transform_loop c currentTransformId (VArray l) rest h
        | Throws ex => (setError ex currentTransformId h, None)
        end
  end.

(** The code after [await result]. *)
Definition resume (k : Suspended) (h : Hook) : Hook * option Suspended :=
  match k_promise k with
  | Fulfilled promiseResult =>
      transform_loop (k_closure k) (k_id k) promiseResult (k_rest k) h
  | Rejected ex => (setError ex (k_id k) h, None)
  end.

Definition transformList (c : Closure) (h : Hook) : Hook * option Suspended :=
  let currentTransformId := S (transformListId h) in
  let h1 := {| state := state h;
               transformListId := currentTransformId;
               transforms := transforms h;
               options := options h;
               calls := calls h |} in
  let h2 := setLoading true h1 in
  if is_nullish (c_data c) then
    (setList (VArray (c_list c)) currentTransformId h2, None)
  else
    transform_loop c currentTransformId (VArray (c_list c)) (transforms h2) h2.

(** ** Renders (lines 133-138, 153-157, 265-267) *)

(** The first render: [useReducer] takes its initial state from the
    options, both refs are initialised. *)
Definition mount (o : UseTransformOptions) : Hook :=
  {| state := {| st_data := opt_transformData o;
                 st_list := Some (VArray (opt_list o));
                 st_loading := false;
                 st_error := None |};
     transformListId := 0;
     transforms := toArray (opt_transform o);
     options := o;
     calls := [] |}.

(** A later render with options [o]: the store and [transformListId] are
    kept, the callbacks close over the new options, and the effect without
    dependencies refreshes [transforms.current]. *)
Definition render (o : UseTransformOptions) (h : Hook) : Hook :=
  {| state := state h;
     transformListId := transformListId h;
     transforms := toArray (opt_transform o);
     options := o;
     calls := calls h |}.

(** ** The hook instance over time *)

(** The hook together with the runs that are awaiting a promise. *)
Record Instance := {
  hook : Hook;
  pending : list Suspended;
}.

(** What can happen to an instance: a call of the mutation API, a render,
    the effect starting a run, or the promise of the [n]-th awaiting run
    settling. *)
Inductive Event :=
  | SetData (d : JsData)
  | UpdateData (p : JsData)
  | ResetData
  | Render (o : UseTransformOptions)
  | Run (c : Closure)
  | Settle (n : nat).

Definition step (e : Event) (s : Instance) : Instance :=
  match e with
  | SetData d => {| hook := setTransform d (hook s); pending := pending s |}
  | UpdateData p =>
      {| hook := updateTransform p (hook s); pending := pending s |}
  | ResetData => {| hook := resetTransform (hook s); pending := pending s |}
  | Render o => {| hook := render o (hook s); pending := pending s |}
  | Run c =>
      let '(h, r) := transformList c (hook s) in
      {| hook := h; pending := pending s ++ option_list r |}
  | Settle n =>
      match pending s !! n with
      | Some k =>
          let '(h, r) := resume k (hook s) in
          {| hook := h; pending := delete n (pending s) ++ option_list r |}
      | None => s
      end
  end.

Definition steps (es : list Event) (s : Instance) : Instance :=
  fold_left (λ s e, step e s) es s.

(** The [transformData] option of the latest render in [es], or [d0] when
    [es] has no render. *)
Fixpoint latest_transformData (d0 : JsData) (es : list Event) : JsData :=
  match es with
  | [] => d0
  | Render o :: es' => latest_transformData (opt_transformData o) es'
  | _ :: es' => latest_transformData d0 es'
  end.

(** The working list after the stages [pre], when each of them returns
    synchronously without throwing ([None] otherwise). *)
Fixpoint sync_stages (c : Closure) (transformedList : JsVal)
    (pre : list JsElem) : option JsVal :=
  match pre with
  | [] => Some transformedList
  | transform :: rest =>
      match invoke transform
              {| tp_list := transformedList; tp_data := c_data c;
                 tp_previousData := c_prev c |} with
      | ReturnsArray l => sync_stages c (VArray l) rest
      | ReturnsFunction p =>
          match transformedList with
          | VArray l => sync_stages c (VArray (Array_filter p l)) rest
          | VFunction _ => None
          end
      | ReturnsPromise _ | Throws _ => None
      end
  end.

(** ** Stages that filter by hand *)

(** [({ list }) => list.filter(p)], the shape of [byAge] in the tests. *)
Definition manual_filter (p : Item → nat → bool) : JsElem :=
  Callable (λ params,
    match tp_list params with
    | VArray l => ReturnsArray (Array_filter p l)
    | VFunction _ => Throws TypeError
    end).

(** [async ({ list }) => list.filter(p)]: the same through a promise. *)
Definition manual_filter_async (p : Item → nat → bool) : JsElem :=
  Callable (λ params,
    match tp_list params with
    | VArray l => ReturnsPromise (Fulfilled (VArray (Array_filter p l)))
    | VFunction _ => ReturnsPromise (Rejected TypeError)
    end).

(** ** What a render returns (lines 274-286) *)

(** The object the hook returns, without the three functions of the
    mutation API ([setTransform], [updateTransform], [resetTransform]
    above). *)
Record HookResult := {
  transformed : option JsVal;
  transformData : JsData;
  loading : bool;
  error : option JsError;
}.

(** [error != null] for the value in [state.error].  The field holds the
    thrown value itself, and a stage can throw [undefined] or [null];
    [is_null] tells which of the caller's thrown values are one of the
    two. *)
Definition error_not_null (is_null : Err → bool) (error : option JsError)
  : bool :=
  match error with
  | None => false
  | Some TypeError => true
  | Some (Thrown e) => negb (is_null e)
  end.

(** The end of the hook's body: with [throwOnError === true] and
    [state.error != null] it throws the error of the store, otherwise it
    returns the store's fields. *)
Definition useListTransform (is_null : Err → bool) (h : Hook)
  : JsError + HookResult :=
  match st_error (state h) with
  | Some err =>
      if opt_throwOnError (options h)
         && error_not_null is_null (st_error (state h))
      then inl err
      else inr {| transformed := st_list (state h);
                  transformData := st_data (state h);
                  loading := st_loading (state h);
                  error := st_error (state h) |}
  | None =>
      inr {| transformed := st_list (state h);
             transformData := st_data (state h);
             loading := st_loading (state h);
             error := st_error (state h) |}
  end.

(** The event is not a render, or it is a render that passes [d0] as its
    [transformData] option. *)
Definition keeps_transformData (d0 : JsData) (ev : Event) : Prop :=
  match ev with
  | Render o => opt_transformData o = d0
  | _ => True
  end.

(** ** Vocabulary for statements about event sequences *)

(** The calls of the mutation API. *)
Definition is_mutation (ev : Event) : bool :=
  match ev with
  | SetData _ | UpdateData _ | ResetData => true
  | Render _ | Run _ | Settle _ => false
  end.

(** How many runs the events start. *)
Fixpoint runs_started (es : list Event) : nat :=
  match es with
  | [] => 0
  | Run _ :: es' => S (runs_started es')
  | _ :: es' => runs_started es'
  end.

(** The identifiers of the awaiting runs. *)
Definition pending_ids (s : Instance) : list nat := k_id <$> pending s.

(** The latest run is awaiting a promise. *)
Definition latest_in_flight (s : Instance) : Prop :=
  transformListId (hook s) ∈ pending_ids s.

(** The hook after the first two statements of [transformList]: the
    counter incremented and [setLoading(true)] done. *)
Definition begun (h : Hook) : Hook :=
  setLoading true
    {| state := state h;
       transformListId := S (transformListId h);
       transforms := transforms h;
       options := options h;
       calls := calls h |}.


(** What holds of an instance at any time after its first render: the
    awaiting runs carry distinct identifiers that were issued, the loading
    flag is set exactly while the latest run awaits, the error is clear
    while loading, and an error comes with a [null] list. *)
Definition consistent (s : Instance) : Prop :=
  Forall (λ i, 1 ≤ i ≤ transformListId (hook s)) (pending_ids s)
  ∧ NoDup (pending_ids s)
  ∧ (st_loading (state (hook s)) = true ↔ latest_in_flight s)
  ∧ (st_loading (state (hook s)) = true → st_error (state (hook s)) = None)
  ∧ (is_Some (st_error (state (hook s))) → st_list (state (hook s)) = None).

(** ** What a run leaves alone *)

(** The parts of the hook that only renders, the first line of
    [transformList] and the mutation API write. *)
Definition frame (h : Hook)
  : nat * list JsElem * UseTransformOptions * JsData :=
  (transformListId h, transforms h, options h, st_data (state h)).

End UseListTransform.

(** * A concrete instance

    Items are numbers, the values of the transform data are numbers, and
    thrown values are strings. *)

Module Scenario.

Definition testList : list nat := [1; 2].

Definition is_one : nat → nat → bool := λ item _, Nat.eqb item 1.

Definition testData : @JsData nat := DObject {[ "age" := 12 ]}.

(** A stage returning a predicate, as [bySearchTerm] in the tests. *)
Definition byPredicate : @JsElem nat nat string :=
  Callable (λ _, ReturnsFunction is_one).

(** A stage whose promise is fulfilled with a predicate. *)
Definition byAsyncPredicate
  : @TransformerParams nat nat → @Completion nat string :=
  λ _, ReturnsPromise (Fulfilled (VFunction is_one)).

(** [byThrowError] of the tests. *)
Definition byThrowError
  : @TransformerParams nat nat → @Completion nat string :=
  λ _, Throws (Thrown "error").

Definition withTransform (transform : @TransformOption nat nat string)
  : @UseTransformOptions nat nat string :=
  {| opt_list := testList;
     opt_transformData := testData;
     opt_transform := transform;
     opt_throwOnError := false |}.

(** The closure of [transformList] at a render that sees [testData]. *)
Definition closure : @Closure nat nat :=
  {| c_data := testData; c_prev := DUndefined; c_list := testList |}.

(** The closure at a render where the transform data was never set. *)
Definition closureNoData : @Closure nat nat :=
  {| c_data := DUndefined; c_prev := DUndefined; c_list := testList |}.

(** The instance right after the first render. *)
Definition mounted (transform : @TransformOption nat nat string)
  : @Instance nat nat string :=
  {| hook := mount (withTransform transform); pending := [] |}.

(** Options of a later render that passes another [transformData]. *)
Definition otherData : @UseTransformOptions nat nat string :=
  {| opt_list := testList;
     opt_transformData := DObject {[ "age" := 42 ]};
     opt_transform := OptArray [byPredicate];
     opt_throwOnError := false |}.

End Scenario.

(** * Properties *)

Section Properties.

Context {Item V Err : Type}.

Implicit Types (h : @Hook Item V Err) (s : @Instance Item V Err).
Implicit Types (c : @Closure Item V) (k : @Suspended Item V Err).
Implicit Types (tl : @JsVal Item) (e : @JsError Err).
Implicit Types (stages rest : list (@JsElem Item V Err)).
Implicit Types (es : list (@Event Item V Err)).

(** ** The staleness guard *)

Lemma isLatestTransform_true id h :
  isLatestTransform id h = true ↔ transformListId h = id.
Proof. unfold isLatestTransform. apply Nat.eqb_eq. Qed.

Lemma isLatestTransform_false id h :
  isLatestTransform id h = false ↔ transformListId h ≠ id.
Proof. unfold isLatestTransform. apply Nat.eqb_neq. Qed.

Lemma setList_stale tl id h :
  isLatestTransform id h = false → setList tl id h = h.
Proof. intros Hs. unfold setList. by rewrite Hs. Qed.

Lemma setList_latest tl id h :
  isLatestTransform id h = true →
  setList tl id h =
    {| state := transformReducer (state h) (SET_LIST tl);
       transformListId := transformListId h;
       transforms := transforms h;
       options := options h;
       calls := calls h ++ [onLoading false; onListUpdate tl] |}.
Proof.
  intros Hl. unfold setList. rewrite Hl. cbn.
  unfold dispatch, call. cbn. by rewrite <- app_assoc.
Qed.

Lemma setError_stale e id h :
  isLatestTransform id h = false → setError e id h = call (onError e) h.
Proof. intros Hs. unfold setError, isLatestTransform in *. cbn. by rewrite Hs. Qed.

Lemma setError_latest e id h :
  isLatestTransform id h = true →
  setError e id h = dispatch (SET_ERROR e) (call (onError e) h).
Proof. intros Hl. unfold setError, isLatestTransform in *. cbn. by rewrite Hl. Qed.

(** A run that is no longer the latest does nothing more in the loop: no
    stage is invoked and nothing is committed. *)
Lemma transform_loop_stale c id tl stages h :
  isLatestTransform id h = false →
  transform_loop c id tl stages h = (h, None).
Proof.
  intros Hs. destruct stages as [|t rest]; cbn.
  - by rewrite setList_stale.
  - by rewrite Hs.
Qed.

Lemma resume_stale k h :
  isLatestTransform (k_id k) h = false →
  resume k h =
    (match k_promise k with
     | Rejected e => call (onError e) h
     | Fulfilled _ => h
     end, None).
Proof.
  intros Hs. unfold resume. destruct (k_promise k).
  - by apply transform_loop_stale.
  - by rewrite setError_stale.
Qed.

(** ** What a run leaves alone *)

Lemma setList_frame tl id h : frame (setList tl id h) = frame h.
Proof. unfold setList. by destruct (negb _). Qed.

Lemma setError_frame e id h : frame (setError e id h) = frame h.
Proof. unfold setError. by destruct (negb _). Qed.

Lemma transform_loop_frame c id stages :
  ∀ tl h, frame (transform_loop c id tl stages h).1 = frame h.
Proof.
  induction stages as [|t rest IH]; intros tl h; cbn.
  - apply setList_frame.
  - destruct (negb _); [done|].
    destruct (invoke _ _) as [l|p|st|e]; cbn; auto using setError_frame.
    destruct tl; cbn; auto using setError_frame.
Qed.

Lemma resume_frame k h : frame (resume k h).1 = frame h.
Proof.
  unfold resume. destruct (k_promise k); cbn.
  - apply transform_loop_frame.
  - apply setError_frame.
Qed.

(** A continuation keeps the identifier of its run. *)
Lemma transform_loop_continuation c id stages :
  ∀ tl h k, (transform_loop c id tl stages h).2 = Some k → k_id k = id.
Proof.
  induction stages as [|t rest IH]; intros tl h k; cbn; [done|].
  destruct (negb _); [done|].
  destruct (invoke _ _) as [l|p|st|e]; cbn; eauto; try done.
  - destruct tl; cbn; eauto; done.
  - by intros [= <-].
Qed.

Lemma frame_id h h' :
  frame h' = frame h → transformListId h' = transformListId h.
Proof. unfold frame. by intros [= -> _ _ _]. Qed.

Lemma frame_data h h' :
  frame h' = frame h → st_data (state h') = st_data (state h).
Proof. unfold frame. by intros [= _ _ _ ->]. Qed.

Lemma frame_options h h' : frame h' = frame h → options h' = options h.
Proof. unfold frame. by intros [= _ _ -> _]. Qed.

Lemma transformList_id c h :
  transformListId (transformList c h).1 = S (transformListId h).
Proof.
  unfold transformList. destruct (is_nullish _); cbn.
  - by rewrite (frame_id _ _ (setList_frame _ _ _)).
  - by rewrite (frame_id _ _ (transform_loop_frame _ _ _ _ _)).
Qed.

Lemma step_id_mono ev s :
  transformListId (hook s) ≤ transformListId (hook (step ev s)).
Proof.
  destruct ev as [d|p| |o|c|n]; cbn; try lia.
  - pose proof (transformList_id c (hook s)) as Hid.
    destruct (transformList c (hook s)) as [h' r]. cbn in *. lia.
  - destruct (pending s !! n) as [k|]; [|lia].
    pose proof (resume_frame k (hook s)) as Hf.
    apply frame_id in Hf.
    destruct (resume k (hook s)) as [h' r]. cbn in *. lia.
Qed.

Lemma steps_id_mono es :
  ∀ s, transformListId (hook s) ≤ transformListId (hook (steps es s)).
Proof.
  induction es as [|ev es IH]; intros s; cbn; [lia|].
  etrans; [apply (step_id_mono ev)|]. apply IH.
Qed.

Lemma step_Run_id c s :
  transformListId (hook (step (Run c) s)) = S (transformListId (hook s)).
Proof.
  cbn. pose proof (transformList_id c (hook s)) as Hid.
  by destruct (transformList c (hook s)).
Qed.

(** ** Last writer wins by run identifier *)

(** Settling the promise of a run whose identifier is not the current one
    changes neither the store nor the set of the other awaiting runs; the
    only callback it can reach is [onError]. *)
Lemma step_Settle_stale s n k :
  pending s !! n = Some k →
  transformListId (hook s) ≠ k_id k →
  state (hook (step (Settle n) s)) = state (hook s)
  ∧ pending (step (Settle n) s) = delete n (pending s)
  ∧ calls (hook (step (Settle n) s)) =
      calls (hook s) ++ match k_promise k with
                        | Rejected e => [onError e]
                        | Fulfilled _ => []
                        end.
Proof.
  intros Hk Hne. cbn. rewrite Hk.
  rewrite resume_stale by by apply isLatestTransform_false.
  cbn. destruct (k_promise k); cbn; by rewrite !app_nil_r.
Qed.

(** C1. Run A begins at [s0] and gets the identifier
    [S (transformListId (hook s0))]; after any events [es1] a newer run
    begins, and any events [es2] follow.  Whenever a promise awaited by
    run A settles from then on, the store (so the derived list) is left as
    it is, run A ends there, and neither [onLoading] nor [onListUpdate] is
    invoked: what decides is the order of the identifiers, not the order
    of completion. *)
Theorem superseded_run_never_commits s0 c0 c1 es1 es2 n k :
  pending (steps es2 (step (Run c1) (steps es1 (step (Run c0) s0)))) !! n
    = Some k →
  k_id k = S (transformListId (hook s0)) →
  state (hook (step (Settle n)
     (steps es2 (step (Run c1) (steps es1 (step (Run c0) s0))))))
  = state (hook (steps es2 (step (Run c1) (steps es1 (step (Run c0) s0)))))
  ∧ pending (step (Settle n)
      (steps es2 (step (Run c1) (steps es1 (step (Run c0) s0)))))
    = delete n
        (pending (steps es2 (step (Run c1) (steps es1 (step (Run c0) s0)))))
  ∧ calls (hook (step (Settle n)
      (steps es2 (step (Run c1) (steps es1 (step (Run c0) s0))))))
    = calls (hook (steps es2 (step (Run c1) (steps es1 (step (Run c0) s0)))))
      ++ match k_promise k with
         | Rejected e => [onError e]
         | Fulfilled _ => []
         end.
Proof.
  intros Hk Hid. apply step_Settle_stale; [done|].
  pose proof (steps_id_mono es2 (step (Run c1) (steps es1 (step (Run c0) s0)))) as H2.
  rewrite step_Run_id in H2.
  pose proof (steps_id_mono es1 (step (Run c0) s0)) as H1.
  rewrite step_Run_id in H1. lia.
Qed.

(** The run that is still the latest does commit. *)
Lemma latest_run_commits c id tl h :
  isLatestTransform id h = true →
  transform_loop c id tl [] h =
    ({| state := {| st_data := st_data (state h); st_list := Some tl;
                    st_loading := false; st_error := st_error (state h) |};
        transformListId := transformListId h;
        transforms := transforms h;
        options := options h;
        calls := calls h ++ [onLoading false; onListUpdate tl] |}, None).
Proof. intros Hl. cbn. by rewrite setList_latest. Qed.

(** ** Error commit policy *)

(** A stage is only invoked, so can only throw synchronously, in a run that
    is the latest; the [catch] block then reports and commits the error. *)
Lemma sync_throw c id tl t rest e h :
  invoke t {| tp_list := tl; tp_data := c_data c;
              tp_previousData := c_prev c |} = Throws e →
  transform_loop c id tl (t :: rest) h =
    if isLatestTransform id h
    then (dispatch (SET_ERROR e) (call (onError e) h), None)
    else (h, None).
Proof.
  intros Ht. cbn. rewrite Ht.
  destruct (isLatestTransform id h) eqn:Hl; cbn; [|done].
  by rewrite setError_latest.
Qed.

(** C2. A stage fails in a run with identifier [id], either by throwing
    [e] or by returning a promise that is rejected with [e]; the stage is
    invoked at [h0], where the run is the latest.  A throw is caught at
    once: [onError(e)] is invoked and the error is committed (error set,
    list [null], loading cleared).  A rejection arrives later, at some
    [h]: [onError(e)] is invoked in either case and the run ends, and
    the error is committed if [transformListId.current] is still [id],
    while otherwise the store is left as it is. *)
Theorem error_reported_always_committed_if_latest h0 h c id tl t rest e :
  transformListId h0 = id →
  (invoke t {| tp_list := tl; tp_data := c_data c;
               tp_previousData := c_prev c |} = Throws e →
   transform_loop c id tl (t :: rest) h0
   = ({| state := {| st_data := st_data (state h0); st_list := None;
                     st_loading := false; st_error := Some e |};
         transformListId := transformListId h0;
         transforms := transforms h0;
         options := options h0;
         calls := calls h0 ++ [onError e] |}, None))
  ∧ (invoke t {| tp_list := tl; tp_data := c_data c;
                 tp_previousData := c_prev c |}
     = ReturnsPromise (Rejected e) →
     transform_loop c id tl (t :: rest) h0
     = (h0, Some {| k_id := id; k_closure := c; k_promise := Rejected e;
                    k_rest := rest |})
     ∧ (transformListId h = id →
        resume {| k_id := id; k_closure := c; k_promise := Rejected e;
                  k_rest := rest |} h
        = ({| state := {| st_data := st_data (state h); st_list := None;
                          st_loading := false; st_error := Some e |};
              transformListId := transformListId h;
              transforms := transforms h;
              options := options h;
              calls := calls h ++ [onError e] |}, None))
     ∧ (transformListId h ≠ id →
        resume {| k_id := id; k_closure := c; k_promise := Rejected e;
                  k_rest := rest |} h
        = ({| state := state h;
              transformListId := transformListId h;
              transforms := transforms h;
              options := options h;
              calls := calls h ++ [onError e] |}, None))).
Proof.
  intros Hid0. apply isLatestTransform_true in Hid0. split.
  - intros Ht. by rewrite (sync_throw _ _ _ _ _ _ _ Ht), Hid0.
  - intros Ht. split; [|split].
    + cbn. by rewrite Hid0, Ht.
    + intros Hid%isLatestTransform_true. unfold resume; cbn.
      by rewrite setError_latest.
    + intros Hid%isLatestTransform_false. unfold resume; cbn.
      by rewrite setError_stale.
Qed.

(** ** Normalising a stage's result *)

Lemma filter_from_spec p (l : list Item) :
  ∀ i x, x ∈ filter_from p i l ↔ ∃ j, l !! j = Some x ∧ p x (i + j) = true.
Proof.
  induction l as [|y l IH]; intros i x; cbn.
  - split; [by intros ?%elem_of_nil|]. by intros (j & ? & _).
  - destruct (p y i) eqn:Hp.
    + rewrite elem_of_cons, IH. split.
      * intros [->|(j & Hj & Hpj)].
        -- exists 0. by rewrite Nat.add_0_r.
        -- exists (S j). by rewrite Nat.add_succ_r.
      * intros ([|j] & Hj & Hpj); cbn in Hj.
        -- left. congruence.
        -- right. exists j. by rewrite Nat.add_succ_r in Hpj.
    + rewrite IH. split.
      * intros (j & Hj & Hpj). exists (S j). by rewrite Nat.add_succ_r.
      * intros ([|j] & Hj & Hpj); cbn in Hj.
        -- rewrite Nat.add_0_r in Hpj. congruence.
        -- exists j. by rewrite Nat.add_succ_r in Hpj.
Qed.

Lemma filter_from_sublist p (l : list Item) :
  ∀ i, sublist (filter_from p i l) l.
Proof.
  induction l as [|y l IH]; intros i; cbn; [done|].
  destruct (p y i); [apply sublist_skip|apply sublist_cons]; apply IH.
Qed.


(** Stages that return synchronously without throwing are run through
    without any commit. *)
Lemma transform_loop_sync_prefix c id pre post h :
  isLatestTransform id h = true →
  ∀ tl tl', sync_stages c tl pre = Some tl' →
  transform_loop c id tl (pre ++ post) h = transform_loop c id tl' post h.
Proof.
  intros Hl. induction pre as [|t pre IH]; intros tl tl'; cbn.
  - by intros [= ->].
  - rewrite Hl. cbn.
    destruct (invoke _ _) as [l|p|st|e]; try done.
    + apply IH.
    + destruct tl; [apply IH|done].
Qed.

(** C3 (amended). In a run that is the latest, with an array as working
    list: a stage whose result is a function hands the working list
    filtered by it to the next stage, and the filtered list holds exactly
    the items on which the function, given the item and its index, returns
    true; a stage whose result is an array hands over that array; the
    value a promise is fulfilled with is handed over as it is, with no test
    for a function.  So a stage returning a predicate is equivalent to a
    stage that filters by hand, whether that one returns the filtered list
    directly or through a promise. *)
Theorem predicate_stage_filters c id (l : list Item) t rest h p :
  isLatestTransform id h = true →
  invoke t {| tp_list := VArray l; tp_data := c_data c;
              tp_previousData := c_prev c |} = ReturnsFunction p →
  transform_loop c id (VArray l) (t :: rest) h
    = transform_loop c id (VArray (Array_filter p l)) rest h
  ∧ (∀ x, x ∈ Array_filter p l ↔ ∃ i, l !! i = Some x ∧ p x i = true)
  ∧ sublist (Array_filter p l) l
  ∧ (∀ l', transform_loop c id (VArray l)
             (Callable (λ _, ReturnsArray l') :: rest) h
           = transform_loop c id (VArray l') rest h)
  ∧ (∀ v, resume {| k_id := id; k_closure := c; k_promise := Fulfilled v;
                    k_rest := rest |} h
          = transform_loop c id v rest h)
  ∧ transform_loop c id (VArray l) (manual_filter p :: rest) h
    = transform_loop c id (VArray l) (t :: rest) h
  ∧ transform_loop c id (VArray l) (manual_filter_async p :: rest) h
    = (h, Some {| k_id := id; k_closure := c;
                  k_promise := Fulfilled (VArray (Array_filter p l));
                  k_rest := rest |})
  ∧ resume {| k_id := id; k_closure := c;
              k_promise := Fulfilled (VArray (Array_filter p l));
              k_rest := rest |} h
    = transform_loop c id (VArray l) (t :: rest) h.
Proof.
  intros Hl Ht.
  assert (transform_loop c id (VArray l) (t :: rest) h
          = transform_loop c id (VArray (Array_filter p l)) rest h) as Hhead.
  { cbn. by rewrite Hl, Ht. }
  split; [done|]. split.
  { intros x. unfold Array_filter. by rewrite filter_from_spec. }
  split; [apply filter_from_sublist|].
  split; [intros l'; cbn; by rewrite Hl|].
  split; [done|].
  rewrite Hhead. repeat split; cbn; by rewrite ?Hl.
Qed.

(** ** The mutation API *)

Lemma step_options ev s :
  opt_transformData (options (hook (step ev s))) =
    match ev with
    | Render o => opt_transformData o
    | _ => opt_transformData (options (hook s))
    end.
Proof.
  destruct ev as [d|p| |o|c|n]; cbn; try done.
  - unfold transformList. destruct (is_nullish _).
    + cbn. by rewrite (frame_options _ _ (setList_frame _ _ _)).
    + pose proof (transform_loop_frame c (S (transformListId (hook s)))
        (transforms (hook s)) (VArray (c_list c))) as Hf.
      match goal with |- context [transform_loop _ _ _ _ ?x] =>
        specialize (Hf x); apply frame_options in Hf;
        destruct (transform_loop _ _ _ _ x) end.
      cbn in *. by rewrite Hf.
  - destruct (pending s !! n) as [k|]; [|done].
    pose proof (resume_frame k (hook s)) as Hf. apply frame_options in Hf.
    destruct (resume k (hook s)). cbn in *. by rewrite Hf.
Qed.

Lemma steps_options es :
  ∀ s, opt_transformData (options (hook (steps es s)))
       = latest_transformData (opt_transformData (options (hook s))) es.
Proof.
  induction es as [|ev es IH]; intros s; cbn; [done|].
  unfold steps in IH. rewrite IH, step_options. by destruct ev.
Qed.

(** After any events since the first render, the [resetData] of the
    latest render sets the transform data to the [transformData] option
    of that render. *)
Lemma resetData_restores_latest_option (o0 : @UseTransformOptions Item V Err)
    es :
  st_data (state (hook (step ResetData
     (steps es {| hook := mount o0; pending := [] |}))))
  = latest_transformData (opt_transformData o0) es.
Proof. cbn. by rewrite steps_options. Qed.

(** As long as every render passes the [transformData] option of the first
    one, that is the value [resetData()] restores. *)
Lemma latest_transformData_unchanged (d0 : @JsData V) es :
  (∀ o, Render o ∈ es → opt_transformData o = d0) →
  latest_transformData d0 es = d0.
Proof.
  induction es as [|ev es IH]; intros Hes; cbn; [done|].
  assert (latest_transformData d0 es = d0) as Hrec.
  { apply IH. intros o Ho. apply Hes. by right. }
  destruct ev; try done.
  rewrite (Hes o) by by left. done.
Qed.

Lemma latest_transformData_keeps (d0 : @JsData V) es :
  Forall (keeps_transformData d0) es → latest_transformData d0 es = d0.
Proof.
  induction es as [|ev es IH]; intros Hes; cbn; [done|].
  apply Forall_cons in Hes as [Hev Hes].
  destruct ev; cbn in Hev; rewrite ?Hev; by apply IH.
Qed.

(** C4. After the first render with options [o0] and any sequence of
    calls of [setData], [updateData] and [resetData] -- with the runs
    they start, the promises that settle, and renders that pass the
    same [transformData] option in between -- [resetData()] sets the
    transform data to the [transformData] option of the first render:
    not an intermediate value, and not an argument of [setData]. *)
Theorem resetData_restores_initial_data
    (o0 : @UseTransformOptions Item V Err) es :
  Forall (keeps_transformData (opt_transformData o0)) es →
  st_data (state (hook (step ResetData
     (steps es {| hook := mount o0; pending := [] |}))))
  = opt_transformData o0.
Proof.
  intros Hes. cbn. rewrite steps_options. cbn.
  by apply latest_transformData_keeps.
Qed.

(** C5. [updateData(partial)] makes the transform data the object that
    has, for every key, the value of [partial] when [partial] has the key
    and the prior value (or absence) otherwise; the rest of the state is
    kept. *)
Theorem updateData_shallow_merge h (partial : gmap string V) (key : string) :
  st_data (state (updateTransform (DObject partial) h))
    = DObject (partial ∪ spread (st_data (state h)))
  ∧ (partial ∪ spread (st_data (state h))) !! key
    = match partial !! key with
      | Some v => Some v
      | None => spread (st_data (state h)) !! key
      end
  ∧ st_list (state (updateTransform (DObject partial) h)) = st_list (state h)
  ∧ st_loading (state (updateTransform (DObject partial) h))
    = st_loading (state h)
  ∧ st_error (state (updateTransform (DObject partial) h))
    = st_error (state h).
Proof.
  repeat split. rewrite lookup_union.
  destruct (partial !! key), (spread (st_data (state h)) !! key); done.
Qed.

(** C8. [SET_LOADING] sets the loading flag to its payload and clears the
    error, for either payload: also [SET_LOADING false] clears an error
    that is present. *)
Theorem SET_LOADING_clears_error (st : @TransformState Item V Err)
    (payload : bool) e :
  transformReducer st (SET_LOADING payload)
    = {| st_data := st_data st; st_list := st_list st;
         st_loading := payload; st_error := None |}
  ∧ st_error (transformReducer
       {| st_data := st_data st; st_list := st_list st;
          st_loading := st_loading st; st_error := Some e |}
       (SET_LOADING false)) = None.
Proof. done. Qed.

(** ** Runs *)

(** C6. When the transform data a run sees is [undefined] or [null], the
    run commits the source list as the derived list under its own, fresh
    identifier and ends: the store gets that list with loading and error
    cleared, the callbacks invoked are [onLoading(true)],
    [onLoading(false)] and [onListUpdate(list)], and the pipeline [ts],
    whatever its stages would do, has no part in the outcome. *)
Theorem absent_data_commits_source_list
    (st : @TransformState Item V Err) id ts o cs c :
  is_nullish (c_data c) = true →
  transformList c {| state := st; transformListId := id; transforms := ts;
                     options := o; calls := cs |}
  = ({| state := {| st_data := st_data st;
                    st_list := Some (VArray (c_list c));
                    st_loading := false; st_error := None |};
        transformListId := S id;
        transforms := ts;
        options := o;
        calls := cs ++ [onLoading true; onLoading false;
                        onListUpdate (VArray (c_list c))] |}, None).
Proof.
  intros Hn. unfold transformList. rewrite Hn.
  rewrite setList_latest by apply Nat.eqb_refl.
  cbn. by rewrite <- app_assoc.
Qed.

(** C7. A run that is the latest passes the stages [pre], which return
    synchronously, and its next stage throws [e]: the run ends with the
    error field set to [e], the derived list [null], the loading flag
    cleared, and [onError(e)] as its single callback invocation from
    there on. *)
Theorem sync_throw_commits_error c id tl tl' pre t rest h e :
  isLatestTransform id h = true →
  sync_stages c tl pre = Some tl' →
  invoke t {| tp_list := tl'; tp_data := c_data c;
              tp_previousData := c_prev c |} = Throws e →
  transform_loop c id tl (pre ++ t :: rest) h
  = ({| state := {| st_data := st_data (state h); st_list := None;
                    st_loading := false; st_error := Some e |};
        transformListId := transformListId h;
        transforms := transforms h;
        options := options h;
        calls := calls h ++ [onError e] |}, None).
Proof.
  intros Hl Hpre Ht.
  rewrite (transform_loop_sync_prefix _ _ _ _ _ Hl _ _ Hpre).
  rewrite (sync_throw _ _ _ _ _ _ _ Ht), Hl. done.
Qed.

(** The whole of such a run when it starts: [onLoading(true)], then
    [onError(e)], and nothing else. *)
Lemma sync_throw_whole_run c h tl' pre t rest e :
  is_nullish (c_data c) = false →
  transforms h = pre ++ t :: rest →
  sync_stages c (VArray (c_list c)) pre = Some tl' →
  invoke t {| tp_list := tl'; tp_data := c_data c;
              tp_previousData := c_prev c |} = Throws e →
  transformList c h
  = ({| state := {| st_data := st_data (state h); st_list := None;
                    st_loading := false; st_error := Some e |};
        transformListId := S (transformListId h);
        transforms := transforms h;
        options := options h;
        calls := calls h ++ [onLoading true; onError e] |}, None).
Proof.
  intros Hn Hts Hpre Ht. unfold transformList. rewrite Hn. cbn. rewrite Hts.
  match goal with |- context [transform_loop _ ?i _ _ ?x] =>
    assert (isLatestTransform i x = true) as Hl by apply Nat.eqb_refl end.
  rewrite (transform_loop_sync_prefix _ _ _ _ _ Hl _ _ Hpre).
  rewrite (sync_throw _ _ _ _ _ _ _ Ht), Hl.
  unfold dispatch, call. cbn. by rewrite <- app_assoc.
Qed.

(** C10. With the [transform] option omitted, the pipeline array of a
    render is the one-element array holding [undefined]; a run that sees
    transform data then throws a [TypeError] at that element and commits
    it as the error, with the derived list cleared, where the empty
    pipeline commits the source list. *)
Theorem omitted_transform_commits_TypeError
    (o : @UseTransformOptions Item V Err) h c :
  opt_transform o = OptUndefined →
  is_nullish (c_data c) = false →
  toArray (opt_transform o) = [Undefined]
  ∧ transforms (mount o) = [Undefined]
  ∧ transforms (render o h) = [Undefined]
  ∧ transformList c (render o h)
    = ({| state := {| st_data := st_data (state h); st_list := None;
                      st_loading := false; st_error := Some TypeError |};
          transformListId := S (transformListId h);
          transforms := [Undefined];
          options := o;
          calls := calls h ++ [onLoading true; onError TypeError] |}, None)
  ∧ transformList c
      (render {| opt_list := opt_list o;
                 opt_transformData := opt_transformData o;
                 opt_transform := OptArray [];
                 opt_throwOnError := opt_throwOnError o |} h)
    = ({| state := {| st_data := st_data (state h);
                      st_list := Some (VArray (c_list c));
                      st_loading := false; st_error := None |};
          transformListId := S (transformListId h);
          transforms := [];
          options := {| opt_list := opt_list o;
                        opt_transformData := opt_transformData o;
                        opt_transform := OptArray [];
                        opt_throwOnError := opt_throwOnError o |};
          calls := calls h ++ [onLoading true; onLoading false;
                               onListUpdate (VArray (c_list c))] |}, None).
Proof.
  intros Ho Hn. unfold mount, render. rewrite Ho. cbn.
  repeat split.
  - unfold transformList. rewrite Hn. cbn.
    rewrite Nat.eqb_refl. cbn.
    rewrite setError_latest by apply Nat.eqb_refl.
    unfold dispatch, call, setLoading. cbn. by rewrite <- app_assoc.
  - unfold transformList. rewrite Hn. cbn.
    rewrite setList_latest by apply Nat.eqb_refl.
    unfold dispatch, call, setLoading. cbn. by rewrite <- app_assoc.
Qed.

(** ** Which callbacks a run reaches *)

(** From any point of the loop on, a run invokes nothing (it awaits, or it
    was superseded), or [onLoading(false)] and [onListUpdate] with the list
    it commits, or [onError] alone -- also when the error is committed and
    the store's loading flag is cleared. *)
Lemma transform_loop_calls c id stages :
  ∀ tl h,
    calls (transform_loop c id tl stages h).1 = calls h
    ∨ (∃ v, calls (transform_loop c id tl stages h).1
              = calls h ++ [onLoading false; onListUpdate v]
            ∧ st_list (state (transform_loop c id tl stages h).1) = Some v
            ∧ isLatestTransform id h = true
            ∧ (transform_loop c id tl stages h).2 = None)
    ∨ (∃ e, calls (transform_loop c id tl stages h).1
              = calls h ++ [onError e]
            ∧ state (transform_loop c id tl stages h).1
              = transformReducer (state h) (SET_ERROR e)
            ∧ isLatestTransform id h = true
            ∧ (transform_loop c id tl stages h).2 = None).
Proof.
  induction stages as [|t rest IH]; intros tl h; cbn.
  - destruct (isLatestTransform id h) eqn:Hl.
    + rewrite setList_latest by done. cbn. right; left. by exists tl.
    + rewrite setList_stale by done. by left.
  - destruct (isLatestTransform id h) eqn:Hl; cbn; [|by left].
    destruct (invoke _ _) as [l|p|st|e]; cbn.
    + specialize (IH (VArray l) h). by rewrite Hl in IH.
    + destruct tl as [l|q]; cbn.
      * specialize (IH (VArray (Array_filter p l)) h). by rewrite Hl in IH.
      * rewrite setError_latest by done. right; right. by exists TypeError.
    + by left.
    + rewrite setError_latest by done. right; right. by exists e.
Qed.

(** Every run starts with [onLoading(true)], once. *)
Lemma transformList_calls c h :
  ∃ cs, calls (transformList c h).1 = calls h ++ onLoading true :: cs
        ∧ onLoading true ∉ cs.
Proof.
  unfold transformList. destruct (is_nullish _).
  - rewrite setList_latest by apply Nat.eqb_refl. cbn.
    exists [onLoading false; onListUpdate (VArray (c_list c))].
    rewrite <- app_assoc. split; [done|].
    intros [?|[?|?%elem_of_nil]%elem_of_cons]%elem_of_cons; done.
  - match goal with |- context [transform_loop ?c ?i ?t ?st ?x] =>
      destruct (transform_loop_calls c i st t x)
        as [->|[(v & -> & _)|(e & -> & _)]] end; cbn.
    + exists []. split; [done|]. by intros ?%elem_of_nil.
    + exists [onLoading false; onListUpdate v].
      rewrite <- app_assoc. split; [done|].
      intros [?|[?|?%elem_of_nil]%elem_of_cons]%elem_of_cons; done.
    + exists [onError e]. rewrite <- app_assoc. split; [done|].
      intros [?|?%elem_of_nil]%elem_of_cons; done.
Qed.

End Properties.

(** * The properties at work on the concrete instance *)

Import Scenario.

(** Two runs start one after the other on an asynchronous pipeline; the
    promise of the first one is fulfilled afterwards, and the store stays
    as the second run left it. *)
Lemma superseded_run_never_commits_witness :
  state (hook (steps [Run closure; Run closure; Settle 0]
                 (mounted (OptArray [manual_filter_async is_one]))))
  = state (hook (steps [Run closure; Run closure]
                   (mounted (OptArray [manual_filter_async is_one])))).
Proof.
  exact (proj1 (superseded_run_never_commits
    (mounted (OptArray [manual_filter_async is_one])) closure closure [] [] 0
    {| k_id := 1; k_closure := closure;
       k_promise := Fulfilled (VArray [1]); k_rest := [] |}
    eq_refl eq_refl)).
Defined.

(** A stage returns a promise in run 1; a newer run begins; the promise
    is rejected: [onError] is invoked and the store is left alone. *)
Lemma error_reported_always_committed_if_latest_witness :
  resume {| k_id := 1; k_closure := closure;
            k_promise := Rejected (Thrown "error"); k_rest := [] |}
    (begun (begun (mount (withTransform (OptArray [byPredicate])))))
  = ({| state := state (begun (begun
                    (mount (withTransform (OptArray [byPredicate])))));
        transformListId := 2;
        transforms := [byPredicate];
        options := withTransform (OptArray [byPredicate]);
        calls := [onLoading true; onLoading true;
                  onError (Thrown "error")] |}, None).
Proof.
  destruct (error_reported_always_committed_if_latest
    (begun (mount (withTransform (OptArray [byPredicate]))))
    (begun (begun (mount (withTransform (OptArray [byPredicate])))))
    closure 1 (VArray testList)
    (Callable (λ _, ReturnsPromise (Rejected (Thrown "error")))) []
    (Thrown "error") eq_refl) as [_ Hrejected].
  destruct (Hrejected eq_refl) as (_ & _ & Hstale).
  apply Hstale. cbn. lia.
Defined.

(** Calls of the mutation API, a run, and a render that passes the same
    [transformData] with another pipeline. *)
Lemma resetData_restores_initial_data_witness :
  st_data (state (hook (steps
     [SetData (DObject {[ "age" := 7 ]}); UpdateData (DObject {[ "age" := 8 ]});
      Run closure; Render (withTransform (OptFunction byThrowError));
      SetData DNull; ResetData]
     (mounted (OptArray [byPredicate])))))
  = testData.
Proof.
  apply (resetData_restores_initial_data (withTransform (OptArray [byPredicate]))
    [SetData (DObject {[ "age" := 7 ]}); UpdateData (DObject {[ "age" := 8 ]});
     Run closure; Render (withTransform (OptFunction byThrowError));
     SetData DNull]).
  repeat constructor.
Defined.

(** A predicate stage on [testList]: the next working list is [[1]], the
    items on which [is_one] holds. *)
Lemma predicate_stage_filters_witness :
  transform_loop closure 0 (VArray testList) [byPredicate]
    (mount (withTransform (OptArray [byPredicate])))
  = transform_loop closure 0 (VArray [1]) []
      (mount (withTransform (OptArray [byPredicate]))).
Proof.
  exact (proj1 (predicate_stage_filters closure 0 testList byPredicate []
    (mount (withTransform (OptArray [byPredicate]))) is_one
    eq_refl eq_refl)).
Defined.

(** C3 as stated fails when the predicate arrives through a promise: the
    run commits the function itself as the derived list, not the source
    list filtered by it. *)
Lemma async_predicate_not_filtered :
  st_list (state (hook (steps [Run closure; Settle 0]
                          (mounted (OptFunction byAsyncPredicate)))))
    = Some (VFunction is_one)
  ∧ st_list (state (hook (steps [Run closure; Settle 0]
                            (mounted (OptFunction byAsyncPredicate)))))
    ≠ Some (VArray (Array_filter is_one testList)).
Proof. split; [reflexivity|discriminate]. Qed.

(** When a later render passes another [transformData] option, the
    [resetData] of that render restores that one. *)
Lemma resetData_not_initial_option :
  st_data (state (hook (steps
     [SetData (DObject {[ "age" := 7 ]}); Render otherData; ResetData]
     (mounted (OptArray [byPredicate])))))
    = DObject {[ "age" := 42 ]}
  ∧ st_data (state (hook (steps
       [SetData (DObject {[ "age" := 7 ]}); Render otherData; ResetData]
       (mounted (OptArray [byPredicate])))))
    ≠ opt_transformData (withTransform (OptArray [byPredicate])).
Proof.
  split; [reflexivity|].
  cbn. unfold testData. intros Heq.
  apply (f_equal (λ d, spread d !! "age")) in Heq. cbn in Heq.
  rewrite !lookup_singleton_eq in Heq. discriminate.
Qed.

(** A run that sees no transform data, on a pipeline that would throw. *)
Lemma absent_data_commits_source_list_witness :
  transformList closureNoData (mount (withTransform (OptFunction byThrowError)))
  = ({| state := {| st_data := testData; st_list := Some (VArray testList);
                    st_loading := false; st_error := None |};
        transformListId := 1;
        transforms := [Callable byThrowError];
        options := withTransform (OptFunction byThrowError);
        calls := [onLoading true; onLoading false;
                  onListUpdate (VArray testList)] |}, None).
Proof.
  exact (absent_data_commits_source_list
    {| st_data := testData; st_list := Some (VArray testList);
       st_loading := false; st_error := None |}
    0 [Callable byThrowError] (withTransform (OptFunction byThrowError)) []
    closureNoData eq_refl).
Defined.

(** A predicate stage followed by [byThrowError]. *)
Lemma sync_throw_commits_error_witness :
  transform_loop closure 0 (VArray testList)
    [byPredicate; Callable byThrowError]
    (mount (withTransform (OptArray [byPredicate; Callable byThrowError])))
  = ({| state := {| st_data := testData; st_list := None;
                    st_loading := false;
                    st_error := Some (Thrown "error") |};
        transformListId := 0;
        transforms := [byPredicate; Callable byThrowError];
        options := withTransform
                     (OptArray [byPredicate; Callable byThrowError]);
        calls := [onError (Thrown "error")] |}, None).
Proof.
  exact (sync_throw_commits_error closure 0 (VArray testList) (VArray [1])
    [byPredicate] (Callable byThrowError) []
    (mount (withTransform (OptArray [byPredicate; Callable byThrowError])))
    (Thrown "error") eq_refl eq_refl eq_refl).
Defined.

(** C9 fails on a run whose stage throws: the error is committed and the
    store's loading flag is cleared, yet the only callbacks invoked are
    [onLoading(true)] and [onError]; [onLoading(false)] is not among
    them.  The same options with a predicate stage do invoke it. *)
Theorem failing_run_never_calls_onLoading_false :
  calls (hook (step (Run closure) (mounted (OptFunction byThrowError))))
    = [onLoading true; onError (Thrown "error")]
  ∧ st_loading (state (hook
      (step (Run closure) (mounted (OptFunction byThrowError))))) = false
  ∧ st_error (state (hook
      (step (Run closure) (mounted (OptFunction byThrowError)))))
    = Some (Thrown "error")
  ∧ (onLoading false ∉
       calls (hook (step (Run closure) (mounted (OptFunction byThrowError)))))
  ∧ calls (hook (step (Run closure) (mounted (OptArray [byPredicate]))))
    = [onLoading true; onLoading false; onListUpdate (VArray [1])].
Proof.
  split; [reflexivity|]. split; [reflexivity|]. split; [reflexivity|].
  split; [|reflexivity].
  intros [?|[?|?%elem_of_nil]%elem_of_cons]%elem_of_cons; done.
Qed.

(** The [transform] option omitted, transform data present. *)
Lemma omitted_transform_commits_TypeError_witness :
  transformList closure
    (render (withTransform OptUndefined) (mount (withTransform OptUndefined)))
  = ({| state := {| st_data := testData; st_list := None;
                    st_loading := false; st_error := Some TypeError |};
        transformListId := 1;
        transforms := [Undefined];
        options := withTransform OptUndefined;
        calls := [onLoading true; onError TypeError] |}, None).
Proof.
  exact (proj1 (proj2 (proj2 (proj2
    (omitted_transform_commits_TypeError (withTransform OptUndefined)
       (mount (withTransform OptUndefined)) closure eq_refl eq_refl))))).
Defined.

(** * Further properties of the hook *)

Section Further.

Context {Item V Err : Type}.

Implicit Types (h : @Hook Item V Err) (s : @Instance Item V Err).
Implicit Types (c : @Closure Item V) (k : @Suspended Item V Err).
Implicit Types (tl v : @JsVal Item) (e : @JsError Err).
Implicit Types (stages rest : list (@JsElem Item V Err)).
Implicit Types (es : list (@Event Item V Err)) (ev : @Event Item V Err).
Implicit Types (o : @UseTransformOptions Item V Err).

(** ** How a stretch of a run ends *)

(** In the latest run the loop ends in one of three ways: it awaits a
    promise and has written nothing, it commits a list through [setList],
    or it commits an error through [setError]. *)
Lemma transform_loop_outcome c id stages :
  ∀ tl h, isLatestTransform id h = true →
    (∃ k, transform_loop c id tl stages h = (h, Some k) ∧ k_id k = id)
    ∨ (∃ v, transform_loop c id tl stages h
            = (dispatch (SET_LIST v)
                 (call (onListUpdate v) (call (onLoading false) h)), None))
    ∨ (∃ e, transform_loop c id tl stages h
            = (dispatch (SET_ERROR e) (call (onError e) h), None)).
Proof.
  induction stages as [|t rest IH]; intros tl h Hl; cbn.
  - right; left. exists tl. unfold setList. by rewrite Hl.
  - rewrite Hl. cbn. destruct (invoke _ _) as [l|p|st|e]; cbn.
    + by apply IH.
    + destruct tl as [l|q]; [by apply IH|].
      right; right. exists TypeError. by rewrite setError_latest.
    + left. by eexists.
    + right; right. exists e. by rewrite setError_latest.
Qed.

Lemma begun_latest h :
  isLatestTransform (S (transformListId h)) (begun h) = true.
Proof. apply Nat.eqb_refl. Qed.

Lemma transformList_begun c h :
  transformList c h =
    if is_nullish (c_data c)
    then (setList (VArray (c_list c)) (S (transformListId h)) (begun h), None)
    else transform_loop c (S (transformListId h)) (VArray (c_list c))
           (transforms h) (begun h).
Proof. done. Qed.

Lemma transformList_outcome c h :
  (∃ k, transformList c h = (begun h, Some k)
        ∧ k_id k = S (transformListId h))
  ∨ (∃ v, transformList c h
          = (dispatch (SET_LIST v)
               (call (onListUpdate v) (call (onLoading false) (begun h))),
             None))
  ∨ (∃ e, transformList c h
          = (dispatch (SET_ERROR e) (call (onError e) (begun h)), None)).
Proof.
  rewrite transformList_begun. destruct (is_nullish _).
  - right; left. eexists. unfold setList. by rewrite begun_latest.
  - apply transform_loop_outcome, begun_latest.
Qed.

Lemma resume_outcome k h :
  isLatestTransform (k_id k) h = true →
  (∃ k', resume k h = (h, Some k') ∧ k_id k' = k_id k)
  ∨ (∃ v, resume k h
          = (dispatch (SET_LIST v)
               (call (onListUpdate v) (call (onLoading false) h)), None))
  ∨ (∃ e, resume k h = (dispatch (SET_ERROR e) (call (onError e) h), None)).
Proof.
  intros Hl. unfold resume. destruct (k_promise k) as [v|e].
  - by apply transform_loop_outcome.
  - right; right. exists e. by rewrite setError_latest.
Qed.

(** A stretch of synchronous stages in the latest run ends in the commit
    of what they compute. *)
Lemma transform_loop_sync_commit c id stages h tl v :
  isLatestTransform id h = true →
  sync_stages c tl stages = Some v →
  transform_loop c id tl stages h
  = (dispatch (SET_LIST v)
       (call (onListUpdate v) (call (onLoading false) h)), None).
Proof.
  intros Hl Hs.
  rewrite <- (app_nil_r stages).
  rewrite (transform_loop_sync_prefix _ _ _ _ _ Hl _ _ Hs).
  cbn. unfold setList. by rewrite Hl.
Qed.

(** ** An invariant of the instance *)

Lemma step_Run c s :
  step (Run c) s
  = {| hook := (transformList c (hook s)).1;
       pending := pending s ++ option_list (transformList c (hook s)).2 |}.
Proof. cbn. by destruct (transformList c (hook s)). Qed.

Lemma step_Settle n k s :
  pending s !! n = Some k →
  step (Settle n) s
  = {| hook := (resume k (hook s)).1;
       pending := delete n (pending s) ++ option_list (resume k (hook s)).2 |}.
Proof. intros Hk. cbn. rewrite Hk. by destruct (resume k (hook s)). Qed.

Lemma pending_ids_delete n k s :
  pending s !! n = Some k →
  pending_ids s ≡ₚ k_id k :: (k_id <$> delete n (pending s)).
Proof.
  intros Hk. unfold pending_ids.
  by rewrite (delete_Permutation _ _ _ Hk) at 1.
Qed.

Lemma consistent_mount o : consistent {| hook := mount o; pending := [] |}.
Proof.
  unfold consistent, latest_in_flight, pending_ids. cbn.
  repeat split; try done; try apply NoDup_nil_2;
    try (by intros ?%elem_of_nil); by intros [? ?].
Qed.

Lemma consistent_step ev s : consistent s → consistent (step ev s).
Proof.
  intros (Hb & Hn & Hl & He & Hs).
  destruct ev as [d|p| |o|c|n]; try done.
  - (* a run starts *)
    rewrite step_Run.
    assert (S (transformListId (hook s)) ∉ pending_ids s) as Hfresh.
    { intros Hin. rewrite Forall_forall in Hb. apply Hb in Hin. lia. }
    assert (Forall (λ i, 1 ≤ i ≤ S (transformListId (hook s)))
              (pending_ids s)) as Hb'.
    { eapply Forall_impl; [done|]. cbn. lia. }
    destruct (transformList_outcome c (hook s))
      as [(k & -> & Hk)|[(v & ->)|(e & ->)]];
      unfold consistent, latest_in_flight, pending_ids in *; cbn.
    + rewrite fmap_app. cbn. rewrite Hk. repeat split; try done.
      * apply Forall_app. split; [done|]. apply Forall_singleton. lia.
      * apply NoDup_app. repeat split; [done| |apply NoDup_singleton].
        intros i Hi ->%list_elem_of_singleton. done.
      * intros _. apply elem_of_app. right. by left.
    + rewrite app_nil_r. repeat split; done.
    + rewrite app_nil_r. repeat split; done.
  - (* a promise settles *)
    destruct (pending s !! n) as [k|] eqn:Hk; [|by cbn; rewrite Hk].
    rewrite (step_Settle _ _ _ Hk).
    pose proof (pending_ids_delete _ _ _ Hk) as Hperm.
    assert (k_id k ∉ k_id <$> delete n (pending s)) as Hnotin.
    { rewrite Hperm in Hn. by apply NoDup_cons in Hn as [? _]. }
    assert (NoDup (k_id <$> delete n (pending s))) as Hn'.
    { rewrite Hperm in Hn. by apply NoDup_cons in Hn as [_ ?]. }
    assert (Forall (λ i, 1 ≤ i ≤ transformListId (hook s))
              (k_id <$> delete n (pending s))) as Hb'.
    { rewrite Hperm in Hb. by apply Forall_cons in Hb as [_ ?]. }
    destruct (isLatestTransform (k_id k) (hook s)) eqn:Hlatest.
    + apply isLatestTransform_true in Hlatest.
      assert (st_loading (state (hook s)) = true) as Hload.
      { apply Hl. unfold latest_in_flight. rewrite Hperm, Hlatest. by left. }
      assert (transformListId (hook s) ∉ k_id <$> delete n (pending s))
        as Hnotin' by by rewrite Hlatest.
      destruct (resume_outcome k (hook s))
        as [(k' & -> & Hk')|[(v & ->)|(e & ->)]];
        [by apply isLatestTransform_true|..];
        unfold consistent, latest_in_flight, pending_ids in *; cbn.
      * rewrite fmap_app. cbn. rewrite Hk'.
        assert ((k_id <$> delete n (pending s)) ++ [k_id k]
                ≡ₚ k_id <$> pending s) as ->; [|done].
        rewrite Hperm. by rewrite Permutation_app_comm.
      * rewrite app_nil_r. repeat split; try done.
        rewrite (He Hload). by intros [? [=]].
      * rewrite app_nil_r. repeat split; try done.
    + rewrite resume_stale by done. apply isLatestTransform_false in Hlatest.
      assert (transformListId (hook s) ∈ k_id <$> delete n (pending s)
              ↔ transformListId (hook s) ∈ pending_ids s) as Hiff.
      { rewrite Hperm, elem_of_cons. split; [by right|]. by intros [?|?]. }
      unfold consistent, latest_in_flight, pending_ids in *.
      destruct (k_promise k); cbn; rewrite app_nil_r, Hiff; done.
Qed.

Lemma consistent_steps es : ∀ s, consistent s → consistent (steps es s).
Proof.
  induction es as [|ev es IH]; intros s Hs; [done|].
  apply (IH (step ev s)), consistent_step, Hs.
Qed.

Lemma consistent_reachable o es :
  consistent (steps es {| hook := mount o; pending := [] |}).
Proof. apply consistent_steps, consistent_mount. Qed.

(** ** Run identifiers *)

Lemma step_id ev s :
  transformListId (hook (step ev s))
  = transformListId (hook s) + runs_started [ev].
Proof.
  destruct ev as [d|p| |o|c|n]; cbn [runs_started];
    try (cbn; lia).
  - rewrite step_Run_id. lia.
  - destruct (pending s !! n) as [k|] eqn:Hk; [|cbn; rewrite Hk; lia].
    rewrite (step_Settle _ _ _ Hk). cbn.
    rewrite (frame_id _ _ (resume_frame k (hook s))). lia.
Qed.

(** X1. The run counter counts the runs: after any events it has grown
    by the number of runs started, and nothing else moves it -- no
    settling promise, render or call of the mutation API. *)
Theorem run_identifier_counts_runs es :
  ∀ s, transformListId (hook (steps es s))
       = transformListId (hook s) + runs_started es.
Proof.
  induction es as [|ev es IH]; intros s; cbn [steps fold_left runs_started].
  - lia.
  - fold (steps es (step ev s)). rewrite IH, step_id.
    destruct ev; cbn [runs_started]; lia.
Qed.

(** X2. At any time after the first render the awaiting runs have
    pairwise distinct identifiers, each one issued: between 1 and the
    current value of the counter.  So at most one awaiting run is the
    latest. *)
Theorem awaiting_runs_have_distinct_identifiers o es :
  NoDup (pending_ids (steps es {| hook := mount o; pending := [] |}))
  ∧ Forall
      (λ i, 1 ≤ i
            ≤ transformListId
                (hook (steps es {| hook := mount o; pending := [] |})))
      (pending_ids (steps es {| hook := mount o; pending := [] |})).
Proof. by destruct (consistent_reachable o es) as (? & ? & _). Qed.

(** X3. At any time after the first render the loading flag of the store
    is set exactly when the latest run is awaiting a promise. *)
Theorem loading_iff_latest_run_awaits o es :
  st_loading (state (hook (steps es {| hook := mount o; pending := [] |})))
    = true
  ↔ latest_in_flight (steps es {| hook := mount o; pending := [] |}).
Proof. by destruct (consistent_reachable o es) as (_ & _ & ? & _). Qed.

(** X4. At any time after the first render, an error in the store comes
    with the derived list [null] and the loading flag cleared. *)
Theorem error_excludes_list_and_loading o es e :
  st_error (state (hook (steps es {| hook := mount o; pending := [] |})))
    = Some e →
  st_list (state (hook (steps es {| hook := mount o; pending := [] |})))
    = None
  ∧ st_loading
      (state (hook (steps es {| hook := mount o; pending := [] |})))
    = false.
Proof.
  intros He.
  destruct (consistent_reachable o es) as (_ & _ & _ & Hle & Hel).
  split; [apply Hel; by rewrite He|].
  destruct (st_loading _); [|done].
  rewrite Hle in He; done.
Qed.

(** ** Who writes what *)

(** X5. Only the mutation API writes the transform data: events that are
    runs starting, promises settling or renders leave it as it is. *)
Theorem data_written_only_by_mutation_API es :
  ∀ s, Forall (λ ev, is_mutation ev = false) es →
       st_data (state (hook (steps es s))) = st_data (state (hook s)).
Proof.
  induction es as [|ev es IH]; intros s Hes; [done|].
  apply Forall_cons in Hes as [Hev Hes].
  cbn [steps fold_left]. fold (steps es (step ev s)). rewrite (IH _ Hes).
  destruct ev as [d|p| |o|c|n]; try done.
  - rewrite step_Run. cbn. rewrite transformList_begun.
    destruct (is_nullish _).
    + cbn. by rewrite (frame_data _ _ (setList_frame _ _ _)).
    + by rewrite (frame_data _ _ (transform_loop_frame _ _ _ _ _)).
  - destruct (pending s !! n) as [k|] eqn:Hk; [|by cbn; rewrite Hk].
    rewrite (step_Settle _ _ _ Hk). cbn.
    apply (frame_data _ _ (resume_frame _ _)).
Qed.

(** X6. The mutation API writes the transform data only: calls of
    [setData], [updateData] and [resetData] leave the derived list, the
    loading flag, the error, the run counter, the pipeline and the
    awaiting runs as they are, and invoke no callback. *)
Theorem mutation_API_writes_only_data es :
  ∀ s, Forall (λ ev, is_mutation ev = true) es →
       st_list (state (hook (steps es s))) = st_list (state (hook s))
       ∧ st_loading (state (hook (steps es s))) = st_loading (state (hook s))
       ∧ st_error (state (hook (steps es s))) = st_error (state (hook s))
       ∧ transformListId (hook (steps es s)) = transformListId (hook s)
       ∧ transforms (hook (steps es s)) = transforms (hook s)
       ∧ calls (hook (steps es s)) = calls (hook s)
       ∧ pending (steps es s) = pending s.
Proof.
  induction es as [|ev es IH]; intros s Hes; [done|].
  apply Forall_cons in Hes as [Hev Hes].
  cbn [steps fold_left]. fold (steps es (step ev s)).
  destruct (IH (step ev s) Hes) as (-> & -> & -> & -> & -> & -> & ->).
  by destruct ev.
Qed.

(** ** Runs without a promise *)

(** X7. With an empty pipeline a run commits the source list, whether or
    not transform data is present: the store gets that list with loading
    and error cleared, and the callbacks are [onLoading(true)],
    [onLoading(false)], [onListUpdate(list)]. *)
Theorem empty_pipeline_commits_source_list c h :
  transforms h = [] →
  transformList c h
  = ({| state := {| st_data := st_data (state h);
                    st_list := Some (VArray (c_list c));
                    st_loading := false; st_error := None |};
        transformListId := S (transformListId h);
        transforms := [];
        options := options h;
        calls := calls h ++ [onLoading true; onLoading false;
                             onListUpdate (VArray (c_list c))] |}, None).
Proof.
  intros Ht. rewrite transformList_begun, Ht.
  assert (setList (VArray (c_list c)) (S (transformListId h)) (begun h)
          = {| state := {| st_data := st_data (state h);
                           st_list := Some (VArray (c_list c));
                           st_loading := false; st_error := None |};
               transformListId := S (transformListId h);
               transforms := [];
               options := options h;
               calls := calls h ++ [onLoading true; onLoading false;
                                    onListUpdate (VArray (c_list c))] |})
    as Hset.
  { rewrite setList_latest by apply begun_latest.
    unfold begun, setLoading, dispatch, call. cbn.
    by rewrite Ht, <- app_assoc. }
  destruct (is_nullish _); cbn; by rewrite Hset.
Qed.

(** X8. When transform data is present and every stage of the pipeline
    returns synchronously without throwing, the run ends within the call
    of [transformList]: it commits what the stages compute, one after
    the other, and invokes [onLoading(true)], [onLoading(false)] and
    [onListUpdate] with that list. *)
Theorem synchronous_pipeline_commits c h v :
  is_nullish (c_data c) = false →
  sync_stages c (VArray (c_list c)) (transforms h) = Some v →
  transformList c h
  = ({| state := {| st_data := st_data (state h); st_list := Some v;
                    st_loading := false; st_error := None |};
        transformListId := S (transformListId h);
        transforms := transforms h;
        options := options h;
        calls := calls h ++ [onLoading true; onLoading false;
                             onListUpdate v] |}, None).
Proof.
  intros Hn Hs. rewrite transformList_begun, Hn.
  rewrite (transform_loop_sync_commit _ _ _ _ _ _ (begun_latest h) Hs).
  unfold begun, setLoading, dispatch, call. cbn. by rewrite <- !app_assoc.
Qed.




(** ** The latest run after an await *)

(** X10. When the promise of the latest run is fulfilled and the stages
    after it return synchronously without throwing, the run commits what
    they compute from the fulfilled value: the store gets that list with
    the loading flag cleared, [onLoading(false)] and [onListUpdate] are
    invoked, and the run is no longer awaiting. *)
Theorem latest_run_commits_when_fulfilled s n k v v' :
  pending s !! n = Some k →
  k_id k = transformListId (hook s) →
  k_promise k = Fulfilled v →
  sync_stages (k_closure k) v (k_rest k) = Some v' →
  step (Settle n) s
  = {| hook :=
         {| state := {| st_data := st_data (state (hook s));
                        st_list := Some v';
                        st_loading := false;
                        st_error := st_error (state (hook s)) |};
            transformListId := transformListId (hook s);
            transforms := transforms (hook s);
            options := options (hook s);
            calls := calls (hook s) ++ [onLoading false; onListUpdate v'] |};
       pending := delete n (pending s) |}.
Proof.
  intros Hk Hid Hp Hs. rewrite (step_Settle _ _ _ Hk).
  unfold resume. rewrite Hp.
  assert (isLatestTransform (k_id k) (hook s) = true) as Hl
    by by apply isLatestTransform_true.
  rewrite (transform_loop_sync_commit _ _ _ _ _ _ Hl Hs).
  unfold dispatch, call. cbn. by rewrite app_nil_r, <- app_assoc.
Qed.

Lemma setList_render tl id o h :
  setList tl id (render o h) = render o (setList tl id h).
Proof.
  unfold setList, isLatestTransform. cbn. by destruct (negb _).
Qed.

Lemma setError_render e id o h :
  setError e id (render o h) = render o (setError e id h).
Proof.
  unfold setError, isLatestTransform. cbn. by destruct (negb _).
Qed.

Lemma transform_loop_render c id o stages :
  ∀ tl h, transform_loop c id tl stages (render o h)
          = (render o (transform_loop c id tl stages h).1,
             (transform_loop c id tl stages h).2).
Proof.
  induction stages as [|t rest IH]; intros tl h; cbn.
  - by rewrite setList_render.
  - change (isLatestTransform id (render o h)) with (isLatestTransform id h).
    destruct (negb _); [done|].
    destruct (invoke _ _) as [l|p|st|e]; cbn;
      rewrite ?IH, ?setError_render; try done.
    destruct tl; cbn; by rewrite ?IH, ?setError_render.
Qed.

(** X11. A render while a run awaits does not reach that run: when its
    promise settles it goes on with the stages it had left, whatever
    pipeline and options the render brought, and ends as it would have
    without the render. *)
Theorem render_does_not_reach_awaiting_run k o h :
  resume k (render o h) = (render o (resume k h).1, (resume k h).2).
Proof.
  unfold resume. destruct (k_promise k); cbn.
  - apply transform_loop_render.
  - by rewrite setError_render.
Qed.

(** ** The callbacks of a starting run *)

(** X12. The synchronous part of a run invokes exactly one of three
    sequences of callbacks, and the store agrees with it:
    [onLoading(true)] alone when the run awaits a promise (loading set,
    error clear); [onLoading(true)], [onLoading(false)],
    [onListUpdate(v)] when it commits the list [v] (loading and error
    clear); [onLoading(true)], [onError(e)] when it commits the error
    [e] (list [null], loading clear). *)
Theorem run_start_callback_protocol c h :
  (∃ k, (transformList c h).2 = Some k
        ∧ calls (transformList c h).1 = calls h ++ [onLoading true]
        ∧ st_loading (state (transformList c h).1) = true
        ∧ st_error (state (transformList c h).1) = None
        ∧ st_list (state (transformList c h).1) = st_list (state h))
  ∨ (∃ v, (transformList c h).2 = None
          ∧ calls (transformList c h).1
            = calls h ++ [onLoading true; onLoading false; onListUpdate v]
          ∧ st_list (state (transformList c h).1) = Some v
          ∧ st_loading (state (transformList c h).1) = false
          ∧ st_error (state (transformList c h).1) = None)
  ∨ (∃ e, (transformList c h).2 = None
          ∧ calls (transformList c h).1
            = calls h ++ [onLoading true; onError e]
          ∧ st_error (state (transformList c h).1) = Some e
          ∧ st_list (state (transformList c h).1) = None
          ∧ st_loading (state (transformList c h).1) = false).
Proof.
  destruct (transformList_outcome c h) as [(k & -> & _)|[(v & ->)|(e & ->)]].
  - left. exists k. done.
  - right; left. exists v. cbn. by rewrite <- !app_assoc.
  - right; right. exists e. cbn. by rewrite <- !app_assoc.
Qed.

(** ** The mutation API, continued *)

(** X13. Two calls of [updateData] in a row amount to one call with the
    second partial merged over the first. *)
Theorem updateData_composes (p1 p2 : @JsData V) h :
  updateTransform p2 (updateTransform p1 h)
  = updateTransform (DObject (spread p2 ∪ spread p1)) h.
Proof.
  unfold updateTransform, dispatch. cbn. by rewrite (assoc_L (∪)).
Qed.

(** X14. [updateData] on transform data that is [undefined] or [null]
    makes the data an object with the properties of the partial, so the
    data is present from then on: the next run executes the stages. *)
Theorem updateData_on_absent_data (p : @JsData V) h :
  is_nullish (st_data (state h)) = true →
  st_data (state (updateTransform p h)) = DObject (spread p)
  ∧ is_nullish (st_data (state (updateTransform p h))) = false.
Proof.
  intros Hn. cbn. split; [|done].
  destruct (st_data (state h)); try done; cbn; by rewrite (right_id_L ∅ (∪)).
Qed.

(** ** What a render returns *)

(** X15. After a run in which a stage threw [e] synchronously, the next
    evaluation of the hook throws [e] when [throwOnError] is set and [e]
    is neither [undefined] nor [null]; otherwise it returns normally, with
    [e] in [error], [transformed] [null] and [loading] false. *)
Theorem render_after_failed_run (is_null : Err → bool) c h tl' pre t rest e :
  is_nullish (c_data c) = false →
  transforms h = pre ++ t :: rest →
  sync_stages c (VArray (c_list c)) pre = Some tl' →
  invoke t {| tp_list := tl'; tp_data := c_data c;
              tp_previousData := c_prev c |} = Throws e →
  useListTransform is_null (transformList c h).1
  = if opt_throwOnError (options h) && error_not_null is_null (Some e)
    then inl e
    else inr {| transformed := None;
                transformData := st_data (state h);
                loading := false;
                error := Some e |}.
Proof.
  intros Hn Ht Hpre Hthrow.
  rewrite (sync_throw_whole_run _ _ _ _ _ _ _ Hn Ht Hpre Hthrow).
  unfold useListTransform. cbn. by destruct (_ && _).
Qed.

(** X16. At any time after the first render, while the latest run awaits
    a promise a render does not throw, also with [throwOnError]: it
    returns [loading] true and no error. *)
Theorem render_while_latest_run_awaits (is_null : Err → bool) o es :
  latest_in_flight (steps es {| hook := mount o; pending := [] |}) →
  useListTransform is_null
    (hook (steps es {| hook := mount o; pending := [] |}))
  = inr {| transformed :=
             st_list (state (hook
               (steps es {| hook := mount o; pending := [] |})));
           transformData :=
             st_data (state (hook
               (steps es {| hook := mount o; pending := [] |})));
           loading := true;
           error := None |}.
Proof.
  intros Hfl.
  destruct (consistent_reachable o es) as (_ & _ & Hl & He & _).
  apply Hl in Hfl. unfold useListTransform.
  by rewrite (He Hfl), Hfl.
Qed.

End Further.

(** * The further properties at work on the concrete instance *)

(** A run whose only stage throws leaves an error in the store. *)
Lemma error_excludes_list_and_loading_witness :
  st_list (state (hook (steps [Run closure]
                          (mounted (OptFunction byThrowError))))) = None
  ∧ st_loading (state (hook (steps [Run closure]
                               (mounted (OptFunction byThrowError)))))
    = false.
Proof.
  exact (error_excludes_list_and_loading
    (withTransform (OptFunction byThrowError)) [Run closure]
    (Thrown "error") eq_refl).
Defined.

(** A run starts, a render passes other options, the promise settles. *)
Lemma data_written_only_by_mutation_API_witness :
  st_data (state (hook (steps [Run closure; Render otherData; Settle 0]
                          (mounted (OptArray [manual_filter_async is_one])))))
  = testData.
Proof.
  apply (data_written_only_by_mutation_API
    [Run closure; Render otherData; Settle 0]
    (mounted (OptArray [manual_filter_async is_one]))).
  repeat constructor.
Defined.

(** Three calls of the mutation API while a run awaits. *)
Lemma mutation_API_writes_only_data_witness :
  pending (steps [SetData DNull; UpdateData testData; ResetData]
             (steps [Run closure]
                (mounted (OptArray [manual_filter_async is_one]))))
  = pending (steps [Run closure]
               (mounted (OptArray [manual_filter_async is_one]))).
Proof.
  apply (mutation_API_writes_only_data
    [SetData DNull; UpdateData testData; ResetData]
    (steps [Run closure] (mounted (OptArray [manual_filter_async is_one])))).
  repeat constructor.
Defined.

(** [transform: []] with transform data present. *)
Lemma empty_pipeline_commits_source_list_witness :
  transformList closure (mount (withTransform (OptArray [])))
  = ({| state := {| st_data := testData;
                    st_list := Some (VArray testList);
                    st_loading := false; st_error := None |};
        transformListId := 1;
        transforms := [];
        options := withTransform (OptArray []);
        calls := [onLoading true; onLoading false;
                  onListUpdate (VArray testList)] |}, None).
Proof.
  exact (empty_pipeline_commits_source_list closure
    (mount (withTransform (OptArray []))) eq_refl).
Defined.

(** A predicate stage, then a stage that filters by hand. *)
Lemma synchronous_pipeline_commits_witness :
  transformList closure
    (mount (withTransform (OptArray [byPredicate; manual_filter is_one])))
  = ({| state := {| st_data := testData; st_list := Some (VArray [1]);
                    st_loading := false; st_error := None |};
        transformListId := 1;
        transforms := [byPredicate; manual_filter is_one];
        options := withTransform
                     (OptArray [byPredicate; manual_filter is_one]);
        calls := [onLoading true; onLoading false;
                  onListUpdate (VArray [1])] |}, None).
Proof.
  exact (synchronous_pipeline_commits closure
    (mount (withTransform (OptArray [byPredicate; manual_filter is_one])))
    (VArray [1]) eq_refl eq_refl).
Defined.


(** The promise of the only run is fulfilled. *)
Lemma latest_run_commits_when_fulfilled_witness :
  st_list (state (hook (steps [Run closure; Settle 0]
                          (mounted (OptArray [manual_filter_async is_one])))))
  = Some (VArray [1]).
Proof.
  exact (f_equal (λ s, st_list (state (hook s)))
    (latest_run_commits_when_fulfilled
       (steps [Run closure] (mounted (OptArray [manual_filter_async is_one])))
       0
       {| k_id := 1; k_closure := closure;
          k_promise := Fulfilled (VArray [1]); k_rest := [] |}
       (VArray [1]) (VArray [1]) eq_refl eq_refl eq_refl eq_refl)).
Defined.

(** [updateData] right after a first render without [transformData]. *)
Lemma updateData_on_absent_data_witness :
  st_data (state (updateTransform testData
     (mount {| opt_list := testList; opt_transformData := DUndefined;
               opt_transform := OptArray [byPredicate];
               opt_throwOnError := false |})))
  = DObject (spread testData).
Proof.
  exact (proj1 (updateData_on_absent_data testData
    (mount {| opt_list := testList; opt_transformData := DUndefined;
              opt_transform := OptArray [byPredicate];
              opt_throwOnError := false |}) eq_refl)).
Defined.

(** [byThrowError] with [throwOnError: true], as in the last test; the
    thrown values, strings, are never [undefined] or [null]. *)
Lemma render_after_failed_run_witness :
  useListTransform (λ _, false) (transformList closure
     (mount {| opt_list := testList; opt_transformData := testData;
               opt_transform := OptArray [Callable byThrowError; byPredicate];
               opt_throwOnError := true |})).1
  = inl (Thrown "error").
Proof.
  exact (render_after_failed_run (λ _, false) closure
    (mount {| opt_list := testList; opt_transformData := testData;
              opt_transform := OptArray [Callable byThrowError; byPredicate];
              opt_throwOnError := true |})
    (VArray testList) [] (Callable byThrowError) [byPredicate]
    (Thrown "error") eq_refl eq_refl eq_refl eq_refl).
Defined.

(** A render while the only run awaits its promise. *)
Lemma render_while_latest_run_awaits_witness :
  useListTransform (λ _, false) (hook (steps [Run closure]
     (mounted (OptArray [manual_filter_async is_one]))))
  = inr {| transformed := Some (VArray testList);
           transformData := testData;
           loading := true;
           error := None |}.
Proof.
  exact (render_while_latest_run_awaits (λ _, false)
    (withTransform (OptArray [manual_filter_async is_one])) [Run closure]
    (list_elem_of_here 1 [])).
Defined.

(** With thrown values that can be [undefined] ([None] here), a stage that
    throws [undefined] under [throwOnError: true] does not make the next
    evaluation throw, while a stage that throws a string does. *)
Lemma render_after_throw_undefined :
  useListTransform (λ e : option string, bool_decide (e = None))
    (transformList closure
       (mount {| opt_list := testList; opt_transformData := testData;
                 opt_transform := OptFunction (λ _, Throws (Thrown None));
                 opt_throwOnError := true |})).1
  = inr {| transformed := None; transformData := testData;
           loading := false; error := Some (Thrown None) |}
  ∧ useListTransform (λ e : option string, bool_decide (e = None))
      (transformList closure
         (mount {| opt_list := testList; opt_transformData := testData;
                   opt_transform :=
                     OptFunction (λ _, Throws (Thrown (Some "error")));
                   opt_throwOnError := true |})).1
    = inl (Thrown (Some "error")).
Proof. split; reflexivity. Qed.
